(** * beats-output-http: the publishing client of [client.go]

    A shallow embedding of [Connection] and [Client] (file [client.go]) with
    the two sentinel errors of [http.go], and the properties of the
    status-code driven retry/drop policy of [PublishEvent] and of the batch
    loop of [PublishEvents]; then the construction of clients ([NewClient],
    [Clone]) and the output factory [MakeHTTP] of [http.go].

    Go values are rendered as follows.
    - [int] and [int64] are [Z]; the [expvar.Int] counters wrap at 64 bits.
    - [error] is [option error], [None] being Go's [nil].
    - a slice that may be [nil] is an [option (list _)].
    - [map[string]string] is a [gmap string string].
    - receiver mutation ([conn.connected = false], the encoder's buffer, the
      process-wide counters) is a state monad over [World].
    - the network is the [http] field of the connection: a function from the
      transcript of earlier exchanges and the outgoing request to the outcome
      of [http.Client.Do]; every call is appended to the transcript [wire].
    - logging ([debugf], [logp.Warn]) and the clock ([time.Now]) touch
      neither the returned values nor the state above and are left out. *)

From Stdlib Require Import ZArith String List Lia.
From stdpp Require Import base decidable option list strings gmap.

Open Scope string_scope.
Open Scope list_scope.
Open Scope Z_scope.

(** ** Errors *)

(** The [error] values that can flow through the client.  The two sentinels
    are the package variables of [http.go]; [Errorf] is the value built by
    [fmt.Errorf("%v", resp.Status)]; [LibError] is an error handed back by
    [net/http], [io/ioutil] or the encoder.  Go compares errors by identity,
    so a library error is never equal to a sentinel. *)
Inductive error : Type :=
  | ErrNotConnected
  | ErrJSONEncodeFailed
  | Errorf (msg : string)
  | LibError (msg : string).

#[global] Instance error_eq_dec : EqDecision error.
Proof. solve_decision. Defined.

(** ** Requests, responses and the transcript *)

Definition Header := list (string * string).

(** [Header.Add]: append a value for the key. *)
Definition Header_Add (h : Header) (key value : string) : Header :=
  h ++ [(key, value)].

Record Request := mkRequest {
  Method : string;
  ReqURL : string;
  ReqHeader : Header;
  ReqBody : option (list Byte.byte);
  BasicAuth : option (string * string)
}.

(** [req.SetBasicAuth(username, password)]. *)
Definition SetBasicAuth (req : Request) (username password : string) : Request :=
  mkRequest (Method req) (ReqURL req) (ReqHeader req) (ReqBody req)
            (Some (username, password)).

Definition Request_Header_Add (req : Request) (key value : string) : Request :=
  mkRequest (Method req) (ReqURL req) (Header_Add (ReqHeader req) key value)
            (ReqBody req) (BasicAuth req).

(** What [ioutil.ReadAll(resp.Body)] yields for a response. *)
Inductive ReadAll : Type :=
  | ReadOk (obj : list Byte.byte)
  | ReadFail (msg : string).

Record Response := mkResponse {
  Status : string;
  StatusCode : Z;
  RespBody : ReadAll
}.

(** The outcome of [conn.http.Do(req)]: a transport-level error (DNS, dial,
    TLS handshake, timeout) or a response. *)
Inductive DoResult : Type :=
  | DoErr (msg : string)
  | DoResp (resp : Response).

Definition Exchange : Type := Request * DoResult.

(** [*http.Client], seen from this package: given what was exchanged so far
    and the request, the outcome of the round trip. *)
Definition http_Client : Type := list Exchange -> Request -> DoResult.

(** ** Collaborators that live outside [client.go] *)

(** The [bodyEncoder] interface; [E] is the encoder's own state (its buffer),
    [Ev] the type of event payloads. *)
Class bodyEncoder (E Ev : Type) := {
  Marshal : Ev -> E -> option error * E;
  Reader : E -> list Byte.byte;
  AddHeader : E -> Header -> Header
}.

(** [makeURL] (declared in another file of the package) and the check made by
    [http.NewRequest], which rejects a method or URL it cannot parse. *)
Class Platform := {
  makeURL : string -> string -> string -> gmap string string -> string;
  NewRequest_reject : string -> string -> option string
}.

(** [http.NewRequest(method, url, body)]. *)
Definition NewRequest `{Platform} (method url : string)
    (body : option (list Byte.byte)) : error + Request :=
  match NewRequest_reject method url with
  | Some msg => inl (LibError msg)
  | None => inr (mkRequest method url [] body None)
  end.

(** ** 64-bit counters *)

Definition wrap64 (z : Z) : Z := (z + 2 ^ 63) mod 2 ^ 64 - 2 ^ 63.

(** [expvar.Int.Add]. *)
Definition Int_Add (v delta : Z) : Z := wrap64 (v + delta).

Record Metrics := mkMetrics {
  ackedEvents : Z;
  eventsNotAcked : Z;
  publishEventsCallCount : Z
}.

Section Client.

Context {E Ev : Type} `{!bodyEncoder E Ev} `{!Platform}.

(** ** Data model *)

(** [outputs.Data]: only the [Event] field is read by this package. *)
Record Data := mkData { Event : Ev }.

Record Connection := mkConnection {
  URL : string;
  Username : string;
  Password : string;
  http : http_Client;
  connected : bool;
  encoder : E
}.

Record Client := mkClient {
  conn : Connection;
  params : gmap string string;
  compressionLevel : Z;
  proxyURL : option string
}.

(** The client, the process-wide counters and the transcript of the HTTP
    exchanges performed so far. *)
Record World := mkWorld {
  client : Client;
  metrics : Metrics;
  wire : list Exchange
}.

(** ** State monad *)

Definition M (A : Type) : Type := World -> A * World.

#[global] Instance M_ret : MRet M := fun A (a : A) w => (a, w).

#[global] Instance M_bind : MBind M :=
  fun A B (f : A -> M B) (m : M A) w => let (a, w') := m w in f a w'.

Definition getConn : M Connection := fun w => (conn (client w), w).

Definition getParams : M (gmap string string) := fun w => (params (client w), w).

Definition putConn (c : Connection) : M unit := fun w =>
  (tt, mkWorld (mkClient c (params (client w)) (compressionLevel (client w))
                         (proxyURL (client w)))
               (metrics w) (wire w)).

(** [conn.connected = b]. *)
Definition set_connected (b : bool) : M unit :=
  c ← getConn;
  putConn (mkConnection (URL c) (Username c) (Password c) (http c) b (encoder c)).

Definition set_encoder (e : E) : M unit :=
  c ← getConn;
  putConn (mkConnection (URL c) (Username c) (Password c) (http c) (connected c) e).

(** [conn.http.Do(req)]: ask the network and record the exchange. *)
Definition Do (req : Request) : M DoResult := fun w =>
  let r := http (conn (client w)) (wire w) req in
  (r, mkWorld (client w) (metrics w) (wire w ++ [(req, r)])).

Definition putMetrics (m : Metrics) : M unit := fun w =>
  (tt, mkWorld (client w) m (wire w)).

Definition getMetrics : M Metrics := fun w => (metrics w, w).

(** ** Connection *)

Definition Connect (timeout : Z) : M (option error) :=
  set_connected true;; mret None.

Definition IsConnected : M bool :=
  c ← getConn; mret (connected c).

Definition Close : M (option error) :=
  set_connected false;; mret None.

(** [execHTTPRequest].  The deferred [closing(resp.Body)] only logs. *)
Definition execHTTPRequest (req : Request)
    : M (Z * option (list Byte.byte) * option error) :=
  let req := Request_Header_Add req "Accept" "application/json" in
  c ← getConn;
  let req :=
    if negb (String.eqb (Username c) "") || negb (String.eqb (Password c) "")
    then SetBasicAuth req (Username c) (Password c)
    else req in
  r ← Do req;
  match r with
  | DoErr msg =>
      set_connected false;;
      mret (0, None, Some (LibError msg))
  | DoResp resp =>
      let status := StatusCode resp in
      if status >=? 300 then
        set_connected false;;
        mret (status, None, Some (Errorf (Status resp)))
      else
        match RespBody resp with
        | ReadFail msg =>
            set_connected false;;
            mret (status, None, Some (LibError msg))
        | ReadOk obj => mret (status, Some obj, None)
        end
  end.

(** [execRequest]. *)
Definition execRequest (method url : string) (body : option (list Byte.byte))
    : M (Z * option (list Byte.byte) * option error) :=
  match NewRequest method url body with
  | inl err => mret (0, None, Some err)
  | inr req =>
      c ← getConn;
      let req :=
        match body with
        | Some _ =>
            mkRequest (Method req) (ReqURL req)
                      (AddHeader (encoder c) (ReqHeader req))
                      (ReqBody req) (BasicAuth req)
        | None => req
        end in
      execHTTPRequest req
  end.

(** [request]. *)
Definition request (method path : string) (params : gmap string string)
    (body : option Ev) : M (Z * option (list Byte.byte) * option error) :=
  c ← getConn;
  let url := makeURL (URL c) path "" params in
  match body with
  | None => execRequest method url None
  | Some b =>
      let (err, enc) := Marshal b (encoder c) in
      set_encoder enc;;
      match err with
      | Some _ => mret (0, None, Some ErrJSONEncodeFailed)
      | None =>
          c ← getConn;
          execRequest method url (Some (Reader (encoder c)))
      end
  end.

(** ** Publishing client *)

(** The [switch] of [PublishEvent] over the status of the attempt. *)
Definition classify (status : Z) (err : option error) : option error :=
  if status =? 0 then None                                (* not sent *)
  else if (status >=? 500) || (status =? 429) then err     (* retry *)
  else if (status >=? 300) && (status <? 500) then None    (* no retry *)
  else None.

(** [PublishEvent]. *)
Definition PublishEvent (data : Data) : M (option error) :=
  c ← getConn;
  if negb (connected c) then mret (Some ErrNotConnected)
  else
    let event := Event data in
    p ← getParams;
    r ← request "POST" "" p (Some event);
    let '(status, _, err) := r in
    match err with
    | Some e =>
        if decide (e = ErrJSONEncodeFailed) then mret None
        else mret (classify status err)
    | None => mret (classify status err)
    end.

(** The [for _, event := range data] loop of [PublishEvents]: [Some e] when
    the loop was left through [return nil, sendErr]. *)
Fixpoint publishLoop (data : list Data) : M (option error) :=
  match data with
  | [] => mret None
  | event :: rest =>
      sendErr ← PublishEvent event;
      match sendErr with
      | Some e => mret (Some e)
      | None => publishLoop rest
      end
  end.

Definition add_publishEventsCallCount (delta : Z) : M unit :=
  m ← getMetrics;
  putMetrics (mkMetrics (ackedEvents m) (eventsNotAcked m)
                        (Int_Add (publishEventsCallCount m) delta)).

Definition add_ackedEvents (delta : Z) : M unit :=
  m ← getMetrics;
  putMetrics (mkMetrics (Int_Add (ackedEvents m) delta) (eventsNotAcked m)
                        (publishEventsCallCount m)).

Definition add_eventsNotAcked (delta : Z) : M unit :=
  m ← getMetrics;
  putMetrics (mkMetrics (ackedEvents m) (Int_Add (eventsNotAcked m) delta)
                        (publishEventsCallCount m)).

Definition len {A : Type} (l : list A) : Z := Z.of_nat (length l).

(** [PublishEvents]. *)
Definition PublishEvents (data : list Data)
    : M (option (list Data) * option error) :=
  add_publishEventsCallCount 1;;
  if len data =? 0 then mret (None, None)
  else
    c ← getConn;
    if negb (connected c) then mret (Some data, Some ErrNotConnected)
    else
      let failedEvents : list Data := [] in
      sendErr ← publishLoop data;
      match sendErr with
      | Some e => mret (None, Some e)
      | None =>
          add_ackedEvents (wrap64 (len data - len failedEvents));;
          add_eventsNotAcked (wrap64 (len failedEvents));;
          if len failedEvents >? 0 then mret (Some failedEvents, sendErr)
          else mret (None, None)
      end.

(** ** Observations used by the specification *)

(** The connected flag of a world. *)
Definition up (w : World) : bool := connected (conn (client w)).

(** The world right after [publishEventsCallCount.Add(1)]. *)
Definition counted (w : World) : World := (add_publishEventsCallCount 1 w).2.

(** [published w data w']: starting in [w], the events of [data] were handed
    to [PublishEvent] one after the other, in the order of the slice, each
    call returned [nil], and the last one left the world [w']. *)
Inductive published : World -> list Data -> World -> Prop :=
  | published_nil w : published w [] w
  | published_cons w d w1 rest w2 :
      PublishEvent d w = (None, w1) ->
      published w1 rest w2 ->
      published w (d :: rest) w2.

End Client.

(** ** A test bench

    A JSON-like encoder over flat string maps, a URL builder and scripted
    HTTP clients, used to run the client on concrete inputs. *)
Module Bench.

(** Values of an event: strings, booleans, and Go functions, for which
    [encoding/json] has no representation. *)
Inductive Value : Type :=
  | VString (s : string)
  | VBool (b : bool)
  | VFunc.

Definition MapStr : Type := list (string * Value).

Definition quote (s : string) : string :=
  String.append (String (Ascii.ascii_of_nat 34) s)
                (String (Ascii.ascii_of_nat 34) "").

Definition render_value (v : Value) : option string :=
  match v with
  | VString s => Some (quote s)
  | VBool true => Some "true"
  | VBool false => Some "false"
  | VFunc => None
  end.

Fixpoint render_fields (m : MapStr) : option string :=
  match m with
  | [] => Some ""
  | (k, v) :: rest =>
      match render_value v, render_fields rest with
      | Some sv, Some sr =>
          Some (String.append (quote k)
                 (String.append ":"
                   (String.append sv
                     (match rest with [] => "" | _ => String.append "," sr end))))
      | _, _ => None
      end
  end.

(** The plain encoder: the buffer is reset, then filled. *)
#[global] Instance jsonEncoder : bodyEncoder (list Byte.byte) MapStr := {
  Marshal body _ :=
    match render_fields body with
    | Some s =>
        (None, list_byte_of_string (String.append "{" (String.append s "}")))
    | None => (Some (LibError "json: unsupported type: func()"), [])
    end;
  Reader buf := buf;
  AddHeader _ h := Header_Add h "Content-Type" "application/json; charset=UTF-8"
}.

(** URLs are the base URL followed by the path; a URL that starts with a
    colon has no scheme and is rejected by [http.NewRequest]. *)
#[global] Instance platform : Platform := {
  makeURL url path _ _ := String.append url path;
  NewRequest_reject _ url :=
    if String.prefix ":" url then Some "parse: missing protocol scheme"
    else None
}.

(** An HTTP client that answers the n-th request with the n-th entry of a
    script, and fails to dial once the script is exhausted. *)
Definition scripted (script : list DoResult) : http_Client :=
  fun history _ => nth (length history) script (DoErr "dial tcp: connection refused").

Definition answer (code : Z) (status : string) : DoResult :=
  DoResp (mkResponse status code (ReadOk [])).

Definition zero : Metrics := mkMetrics 0 0 0.

Definition world (up : bool) (script : list DoResult) : @World (list Byte.byte) :=
  mkWorld (mkClient (mkConnection "http://example.com/foo" "" "" (scripted script) up [])
                    ∅ 0 None)
          zero [].

Definition ok : DoResult := answer 200 "200 OK".
Definition unavailable : DoResult := answer 503 "503 Service Unavailable".
Definition not_found : DoResult := answer 404 "404 Not Found".
Definition handshake : DoResult := DoErr "remote error: tls: handshake failure".

Definition hello : @Data MapStr := mkData [("message", VString "hello")].
Definition broken : @Data MapStr := mkData [("callback", VFunc)].

Definition no_events : list (@Data MapStr) := [].

End Bench.

(** ** Construction of clients

    [NewClient] and [Clone].  The encoder constructors live in another file
    of the package; the HTTP client assembled by [NewClient] is determined by
    the proxy choice, the TLS configuration and the timeout, and [Clone]
    reads the last two back from it. *)

(** The [Proxy] field of the transport. *)
Inductive Proxy : Type :=
  | ProxyFromEnvironment
  | ProxyURL (u : string).

Class Stack (E TLS : Type) := {
  newJSONEncoder : E;
  newGzipEncoder : Z -> error + E;
  newHTTPClient : Proxy -> option TLS -> Z -> http_Client;
  http_TLSClientConfig : http_Client -> option TLS;
  http_Timeout : http_Client -> Z
}.

Section Construction.

Context {E TLS : Type} `{!Stack E TLS}.

(** [NewClient]: [(nil, err)] or [(client, nil)]. *)
Definition NewClient (hostURL : string) (proxyURL : option string)
    (tls : option TLS) (username password : string)
    (params : gmap string string) (timeout : Z) (compression : Z)
    : option (@Client E) * option error :=
  let proxy :=
    match proxyURL with
    | Some u => ProxyURL u
    | None => ProxyFromEnvironment
    end in
  let made :=
    if compression =? 0 then inr newJSONEncoder
    else newGzipEncoder compression in
  match made with
  | inl err => (None, Some err)
  | inr encoder =>
      (Some (mkClient
               (mkConnection hostURL username password
                             (newHTTPClient proxy tls timeout)
                             false encoder)
               params 0 proxyURL),
       None)
  end.

(** [Clone]: the error of [NewClient] is discarded, so the result is nil
    when construction fails. *)
Definition Clone (client : @Client E) : option (@Client E) :=
  let transport := http (conn client) in
  (NewClient (URL (conn client)) (proxyURL client)
             (http_TLSClientConfig transport)
             (Username (conn client)) (Password (conn client))
             ∅
             (http_Timeout (http (conn client)))
             (compressionLevel client)).1.

End Construction.

(** ** The output factory of [http.go]

    [MakeHTTP] reads the configuration, then builds one client per host.
    Everything it calls lives in libbeat or in other files of the package
    and is a method of [Libbeat]; a [(value, error)] result of a callee whose
    value is only used when the error is nil is a sum. *)
Module Output.

Record backoff := mkBackoff { Init : Z; Max : Z }.

(** The fields of the configuration that [MakeHTTP] reads. *)
Record config {TLSSettings : Type} := mkConfig {
  Protocol : string;
  Path : string;
  Params : option (gmap string string);
  Username : string;
  Password : string;
  ProxyURL : string;
  TLS : TLSSettings;
  Timeout : Z;
  CompressionLevel : Z;
  BatchPublish : bool;
  Headers : option (gmap string string);
  ContentType : string;
  Format : string;
  Backoff : backoff;
  LoadBalance : bool;
  BatchSize : Z;
  MaxRetries : Z
}.
Arguments config : clear implicits.

(** The [ClientSettings] literal built for each host. *)
Record ClientSettings {TLSConfig Observer : Type} := mkClientSettings {
  cs_URL : string;
  cs_Proxy : option string;
  cs_TLS : TLSConfig;
  cs_Username : string;
  cs_Password : string;
  cs_Parameters : option (gmap string string);
  cs_Timeout : Z;
  cs_CompressionLevel : Z;
  cs_Observer : Observer;
  cs_BatchPublish : bool;
  cs_Headers : option (gmap string string);
  cs_ContentType : string;
  cs_Format : string
}.
Arguments ClientSettings : clear implicits.

Class Libbeat (Cfg TLSSettings TLSConfig Observer NetworkClient Group : Type) := {
  defaultConfig : config TLSSettings;
  Unpack : Cfg -> config TLSSettings -> error + config TLSSettings;
  LoadTLSConfig : TLSSettings -> error + TLSConfig;
  ReadHostList : Cfg -> error + list string;
  parseProxyURL : string -> error + option string;
  MakeURL : string -> string -> string -> Z -> error + string;
  NewClient : ClientSettings TLSConfig Observer -> error + NetworkClient;
  WithBackoff : NetworkClient -> Z -> Z -> NetworkClient;
  SuccessNet : bool -> Z -> Z -> list NetworkClient -> Group * option error;
  Fail : error -> Group * option error
}.

Section MakeHTTP.

Context {Cfg TLSSettings TLSConfig Observer NetworkClient Group : Type}
        `{!Libbeat Cfg TLSSettings TLSConfig Observer NetworkClient Group}.

(** [len] of a map that may be nil. *)
Definition map_len (m : option (gmap string string)) : Z :=
  match m with
  | None => 0
  | Some m => Z.of_nat (size m)
  end.

(** The port chosen for a protocol. *)
Definition port_of (protocol : string) : Z :=
  if String.eqb protocol "https" then 443 else 80.

(** The struct literal passed to [NewClient] for the URL of one host. *)
Definition settings (config : config TLSSettings) (tlsConfig : TLSConfig)
    (proxyURL : option string) (params : option (gmap string string))
    (observer : Observer) (hostURL : string)
    : ClientSettings TLSConfig Observer :=
  mkClientSettings TLSConfig Observer
    hostURL proxyURL tlsConfig (Username config) (Password config) params
    (Timeout config) (CompressionLevel config) observer (BatchPublish config)
    (Headers config) (ContentType config) (Format config).

(** The [for i, host := range hosts] loop: the clients in the order of the
    hosts, or the error that made the loop return. *)
Fixpoint makeClients (config : config TLSSettings) (tlsConfig : TLSConfig)
    (proxyURL : option string) (params : option (gmap string string))
    (observer : Observer) (hosts : list string) : error + list NetworkClient :=
  match hosts with
  | [] => inr []
  | host :: rest =>
      let port := port_of (Protocol config) in
      match MakeURL (Protocol config) (Path config) host port with
      | inl err => inl err
      | inr hostURL =>
          match NewClient
                  (settings config tlsConfig proxyURL params observer hostURL)
          with
          | inl err => inl err
          | inr client =>
              let client :=
                WithBackoff client (Init (Backoff config)) (Max (Backoff config)) in
              match makeClients config tlsConfig proxyURL params observer rest with
              | inl err => inl err
              | inr clients => inr (client :: clients)
              end
          end
      end
  end.

(** [MakeHTTP]; the index manager and the beat info are not used. *)
Definition MakeHTTP {IndexManager Info : Type} (_ : IndexManager) (beat : Info)
    (observer : Observer) (cfg : Cfg) : Group * option error :=
  match Unpack cfg defaultConfig with
  | inl err => Fail err
  | inr config =>
      match LoadTLSConfig (TLS config) with
      | inl err => Fail err
      | inr tlsConfig =>
          match ReadHostList cfg with
          | inl err => Fail err
          | inr hosts =>
              match parseProxyURL (ProxyURL config) with
              | inl err => Fail err
              | inr proxyURL =>
                  let params :=
                    if map_len (Params config) =? 0 then None
                    else Params config in
                  match makeClients config tlsConfig proxyURL params observer hosts with
                  | inl err => Fail err
                  | inr clients =>
                      SuccessNet (LoadBalance config) (BatchSize config)
                                 (MaxRetries config) clients
                  end
              end
          end
      end
  end.

(** [built config tls proxy observer host client]: [client] is what the loop
    makes for [host]. *)
Definition built (config : config TLSSettings) (tlsConfig : TLSConfig)
    (proxyURL : option string) (params : option (gmap string string))
    (observer : Observer) (host : string) (client : NetworkClient) : Prop :=
  ∃ hostURL c,
    MakeURL (Protocol config) (Path config) host (port_of (Protocol config))
      = inr hostURL ∧
    NewClient (settings config tlsConfig proxyURL params observer hostURL)
      = inr c ∧
    client = WithBackoff c (Init (Backoff config)) (Max (Backoff config)).

(** [fails ... host err]: the loop returns [err] at [host]. *)
Definition fails (config : config TLSSettings) (tlsConfig : TLSConfig)
    (proxyURL : option string) (params : option (gmap string string))
    (observer : Observer) (host : string) (err : error) : Prop :=
  MakeURL (Protocol config) (Path config) host (port_of (Protocol config))
    = inl err ∨
  ∃ hostURL,
    MakeURL (Protocol config) (Path config) host (port_of (Protocol config))
      = inr hostURL ∧
    NewClient (settings config tlsConfig proxyURL params observer hostURL)
      = inl err.

End MakeHTTP.

End Output.

(** ** A second test bench: construction

    An encoder that remembers its compression level, the stack [NewClient]
    builds on, and a libbeat whose clients are the settings they were made
    from. *)
Module Rig.

(** Compression level and buffer. *)
Definition Enc : Type := Z * list Byte.byte.

(** The two magic bytes of a gzip stream stand for the compressed form. *)
Definition gzip_magic : list Byte.byte := [Byte.x1f; Byte.x8b].

#[global] Instance encoder : bodyEncoder Enc Bench.MapStr := {
  Marshal body e :=
    match Bench.render_fields body with
    | Some s =>
        let json := list_byte_of_string (String.append "{" (String.append s "}")) in
        (None, (e.1, if e.1 =? 0 then json else gzip_magic ++ json))
    | None => (Some (LibError "json: unsupported type: func()"), (e.1, []))
    end;
  Reader e := e.2;
  AddHeader e h :=
    let h := Header_Add h "Content-Type" "application/json; charset=UTF-8" in
    if e.1 =? 0 then h else Header_Add h "Content-Encoding" "gzip"
}.

(** The behaviour of an HTTP client is fixed by a script; its settings are
    kept beside it. *)
#[global] Instance stack : Stack Enc string := {
  newJSONEncoder := (0, []);
  newGzipEncoder level :=
    if (1 <=? level) && (level <=? 9) then inr (level, [])
    else inl (LibError "gzip: invalid compression level");
  newHTTPClient _ _ _ := Bench.scripted [Bench.ok];
  http_TLSClientConfig _ := Some "tls";
  http_Timeout _ := 90
}.

Definition libbeat_config : Output.config unit :=
  Output.mkConfig unit "https" "/ingest" (Some ∅) "beat" "secret" "" tt 90 3
    false None "" "" (Output.mkBackoff 1 60) true 2048 3.

(** A client is the settings it was made from and its backoff, if any. *)
Definition NetClient : Type :=
  Output.ClientSettings unit unit * option (Z * Z).

(** A group is the arguments of [SuccessNet], or nothing after [Fail]. *)
Definition Group : Type := option (bool * Z * Z * list NetClient).

(** A configuration is its list of hosts; a host is valid unless empty. *)
#[global] Instance libbeat : Output.Libbeat (list string) unit unit unit NetClient Group := {
  Output.defaultConfig := libbeat_config;
  Output.Unpack _ c := inr c;
  Output.LoadTLSConfig _ := inr tt;
  Output.ReadHostList cfg := inr cfg;
  Output.parseProxyURL u := inr (if String.eqb u "" then None else Some u);
  Output.MakeURL scheme path host port :=
    if String.eqb host "" then inl (LibError "empty host")
    else inr (String.append scheme
               (String.append "://"
                 (String.append host
                   (String.append (if port =? 443 then ":443" else ":80") path))));
  Output.NewClient cs := inr (cs, None);
  Output.WithBackoff c init max := (c.1, Some (init, max));
  Output.SuccessNet lb size retry clients := (Some (lb, size, retry, clients), None);
  Output.Fail err := (None, Some err)
}.

(** A world over the plain encoder with a chosen endpoint and credentials. *)
Definition world_at (url user pass : string) (script : list DoResult)
    : @World (list Byte.byte) :=
  mkWorld (mkClient (mkConnection url user pass (Bench.scripted script) true [])
                    ∅ 0 None)
          Bench.zero [].

End Rig.

(** ** Ranges *)

(** The values an [int64] can hold. *)
Definition int64 (z : Z) : Prop := - 2 ^ 63 ≤ z < 2 ^ 63.

(** * Properties *)

Section Properties.

Context {E Ev : Type} `{!bodyEncoder E Ev} `{!Platform}.

Implicit Types (w : @World E) (d : @Data Ev) (data : list (@Data Ev)).

(** ** Bookkeeping *)

Lemma app_singleton_fresh {A : Type} (l : list A) (x : A) : l ≠ l ++ [x].
Proof.
  intros Heq. apply (f_equal length) in Heq.
  rewrite length_app in Heq. simpl in Heq. lia.
Qed.

Lemma app_singleton_inj {A : Type} (l : list A) (x y : A) :
  l ++ [x] = l ++ [y] → x = y.
Proof. intros Heq. apply app_inv_head in Heq. congruence. Qed.

Ltac run :=
  unfold PublishEvent, request, execRequest, execHTTPRequest, NewRequest, Do,
    set_connected, set_encoder, putConn, getConn, getParams, up,
    mbind, mret, M_bind, M_ret in *;
  simpl in *.

Ltac sent :=
  repeat match goal with
  | H : ?l = ?l ++ [_] |- _ => destruct (app_singleton_fresh _ _ H)
  | H : ?l ++ [_] = ?l ++ [_] |- _ => apply app_singleton_inj in H
  end.

Ltac zbool :=
  rewrite ?Z.geb_leb, ?Z.gtb_ltb, ?orb_true_iff, ?andb_true_iff,
    ?orb_false_iff, ?andb_false_iff, ?negb_true_iff, ?negb_false_iff,
    ?Z.leb_le, ?Z.leb_gt, ?Z.ltb_lt, ?Z.ltb_ge, ?Z.eqb_eq, ?Z.eqb_neq in *.

Ltac cases :=
  repeat first
    [ progress cbn in * | progress sent | progress simplify_eq
    | case_decide | case_match ].

(** A counter that is incremented changes, whatever its value: the
    increment wraps modulo 2^64 and 1 is not a multiple of 2^64. *)
Lemma Int_Add_1_neq (v : Z) : Int_Add v 1 ≠ v.
Proof.
  unfold Int_Add, wrap64. intros Heq.
  change (2 ^ 64) with 18446744073709551616 in Heq.
  change (2 ^ 63) with 9223372036854775808 in Heq.
  pose proof (Z.div_mod (v + 1 + 9223372036854775808) 18446744073709551616).
  lia.
Qed.

(** ** The status partition of [classify] *)

Lemma classify_retry (status : Z) (err : option error) :
  500 ≤ status ∨ status = 429 → classify status err = err.
Proof.
  intros Hs. unfold classify.
  destruct (Z.eqb_spec status 0) as [-> | _]; [lia |].
  destruct (Z.leb_spec 500 status); rewrite Z.geb_leb.
  - rewrite (proj2 (Z.leb_le _ _)); [done | lia].
  - destruct Hs as [? | ->]; [lia | done].
Qed.

Lemma classify_drop (status : Z) (err : option error) :
  status < 500 → status ≠ 429 → classify status err = None.
Proof.
  intros Hlt Hne. unfold classify. cases; zbool; done || lia.
Qed.

(** ** One publish attempt *)

(** C2. A publish attempt answered with a status that is at least 500, or
    exactly 429, is retryable: [PublishEvent] returns the non-nil error made
    from the status line, and the connected flag is false afterwards. *)
Theorem PublishEvent_retryable_status d w req resp :
  wire (PublishEvent d w).2 = wire w ++ [(req, DoResp resp)] →
  500 ≤ StatusCode resp ∨ StatusCode resp = 429 →
  (PublishEvent d w).1 = Some (Errorf (Status resp)) ∧
  (PublishEvent d w).1 ≠ None ∧
  up (PublishEvent d w).2 = false.
Proof.
  intros Hwire Hs. run. cases.
  all: rewrite ?classify_retry by done; zbool; try (intuition (done || lia)).
Qed.

(** C3. A publish attempt answered with a status in 300..499 other than
    429 is terminal: [PublishEvent] returns nil, so the event is dropped and
    no retry is signalled. *)
Theorem PublishEvent_terminal_status d w req resp :
  wire (PublishEvent d w).2 = wire w ++ [(req, DoResp resp)] →
  300 ≤ StatusCode resp < 500 →
  StatusCode resp ≠ 429 →
  (PublishEvent d w).1 = None.
Proof.
  intros Hwire Hs Hne. run. cases.
  all: rewrite ?classify_drop by lia; done.
Qed.

(** C1, as amended. A publish attempt whose round trip fails with a
    transport-level error leaves the connected flag false; the request path
    returns status 0 with that error, and [PublishEvent], which treats
    status 0 as "not sent", returns nil. *)
Theorem PublishEvent_transport_error d w req msg :
  wire (PublishEvent d w).2 = wire w ++ [(req, DoErr msg)] →
  up (PublishEvent d w).2 = false ∧
  (request "POST" "" (params (client w)) (Some (Event d)) w).1
    = (0, None, Some (LibError msg)) ∧
  (PublishEvent d w).1 = None.
Proof.
  intros Hwire. run. cases; done.
Qed.


(** C5, as amended. A publish attempt answered with a status in 300..499
    other than 429 started on a connected client and resets the connected
    flag to false, as every status from 300 on does. *)
Theorem PublishEvent_client_error_disconnects d w req resp :
  wire (PublishEvent d w).2 = wire w ++ [(req, DoResp resp)] →
  300 ≤ StatusCode resp < 500 →
  StatusCode resp ≠ 429 →
  up w = true ∧ up (PublishEvent d w).2 = false.
Proof.
  intros Hwire Hs Hne. run. cases.
  all: zbool; done || lia.
Qed.

(** C9. An event that the encoder cannot marshal never reaches the
    network: the request path returns (0, nil, ErrJSONEncodeFailed) with the
    transcript and the connected flag as they were, and on a connected
    client [PublishEvent] returns nil, again without any exchange and with
    the flag unchanged. *)
Theorem unencodable_event_is_dropped d w method path p e enc :
  Marshal (Event d) (encoder (conn (client w))) = (Some e, enc) →
  (request method path p (Some (Event d)) w).1
    = (0, None, Some ErrJSONEncodeFailed) ∧
  wire (request method path p (Some (Event d)) w).2 = wire w ∧
  up (request method path p (Some (Event d)) w).2 = up w ∧
  (up w = true →
   (PublishEvent d w).1 = None ∧
   wire (PublishEvent d w).2 = wire w ∧
   up (PublishEvent d w).2 = up w).
Proof.
  intros Hmarshal. run. rewrite Hmarshal. cbn.
  repeat split; try done.
  all: match goal with Hup : connected _ = true |- _ => rewrite Hup end.
  all: cbn; rewrite Hmarshal; cbn; by case_decide.
Qed.

(** ** Batches *)

Lemma len_cons_nonzero {A : Type} (x : A) (l : list A) : (len (x :: l) =? 0) = false.
Proof. apply Z.eqb_neq. unfold len. simpl length. lia. Qed.

Lemma len_nonzero {A : Type} (l : list A) : l ≠ [] → (len l =? 0) = false.
Proof. destruct l; [done | intros _; apply len_cons_nonzero]. Qed.

Lemma up_counted w : up (counted w) = up w.
Proof. reflexivity. Qed.

Lemma wire_counted w : wire (counted w) = wire w.
Proof. reflexivity. Qed.

(** The loop over a concatenation runs the loop over the first part and,
    unless that part was left early, the loop over the second part. *)
Lemma publishLoop_app (pre rest : list Data) w :
  publishLoop (pre ++ rest) w =
  match publishLoop pre w with
  | (Some e, w1) => (Some e, w1)
  | (None, w1) => publishLoop rest w1
  end.
Proof.
  revert w. induction pre as [| d pre IH]; intros w; [done |].
  cbn [app publishLoop]. unfold mbind, M_bind.
  destruct (PublishEvent d w) as [[e |] w1]; [done | apply IH].
Qed.

(** The loop performs exactly the calls described by [published]. *)
Lemma published_publishLoop w pre w1 :
  published w pre w1 → publishLoop pre w = (None, w1).
Proof.
  induction 1 as [| w d w1 rest w2 Hd _ IH]; [done |].
  cbn [publishLoop]. unfold mbind, M_bind. by rewrite Hd.
Qed.

Lemma publishLoop_published w data w1 :
  publishLoop data w = (None, w1) → published w data w1.
Proof.
  revert w. induction data as [| d rest IH]; intros w Hloop.
  - cbn in Hloop. injection Hloop as <-. constructor.
  - cbn [publishLoop] in Hloop. unfold mbind, M_bind in Hloop.
    destruct (PublishEvent d w) as [[e |] w'] eqn:Hd; [done |].
    econstructor; [exact Hd | by apply IH].
Qed.

(** Every run of the loop is of one of two shapes: all calls returned nil,
    or the batch splits around the first call that returned an error. *)
Lemma publishLoop_cases data w :
  (∃ w1, published w data w1 ∧ publishLoop data w = (None, w1)) ∨
  (∃ pre d post err w1 w2,
      data = pre ++ d :: post ∧ published w pre w1 ∧
      PublishEvent d w1 = (Some err, w2) ∧
      publishLoop data w = (Some err, w2)).
Proof.
  revert w. induction data as [| d rest IH]; intros w.
  - left. exists w. split; [constructor | done].
  - cbn [publishLoop]. unfold mbind, M_bind.
    destruct (PublishEvent d w) as [[e |] w'] eqn:Hd.
    + right. exists [], d, rest, e, w, w'.
      split_and!; [done | constructor | done | done].
    + destruct (IH w') as [(w1 & Hall & Hloop) | Hsplit].
      * left. exists w1. split; [econstructor; eassumption | done].
      * destruct Hsplit as (pre & d' & post & err & w1 & w2 & -> & Hpre & Hd' & Hloop).
        right. exists (d :: pre), d', post, err, w1, w2.
        split_and!; [done | econstructor; eassumption | done | done].
Qed.

(** One call of [PublishEvent] performs at most one exchange, and appends
    it to the transcript. *)
Lemma PublishEvent_wire d w :
  wire (PublishEvent d w).2 = wire w ∨
  ∃ req, wire (PublishEvent d w).2
         = wire w ++ [(req, http (conn (client w)) (wire w) req)].
Proof.
  run. cases; try (by left).
  all: right; eexists.
  all: match goal with Hdo : http _ _ _ = _ |- _ => rewrite <- Hdo end.
  all: reflexivity.
Qed.

(** [PublishEvents] on a connected client and a non-empty batch is the loop,
    run after the call counter was incremented. *)
Lemma PublishEvents_connected data w :
  data ≠ [] → up w = true →
  PublishEvents data w =
  match publishLoop data (counted w) with
  | (Some e, w1) => ((None, Some e), w1)
  | (None, w1) =>
      ((None, None),
       (add_eventsNotAcked (wrap64 0)
          (add_ackedEvents (wrap64 (len data - 0)) w1).2).2)
  end.
Proof.
  intros Hdata Hup. unfold PublishEvents, mbind, M_bind.
  fold (counted w).
  destruct (add_publishEventsCallCount 1 w) as [[] w0] eqn:Hcount.
  assert (w0 = counted w) as -> by (unfold counted; by rewrite Hcount).
  rewrite (len_nonzero data Hdata). unfold getConn.
  fold (up (counted w)). rewrite up_counted, Hup. cbn [negb].
  destruct (publishLoop data (counted w)) as [[e |] w1]; done.
Qed.

(** C6, as amended. On an empty batch [PublishEvents] returns (nil, nil);
    the client, the transcript and the acked and not-acked counters keep
    their values, and the publish-events call counter is incremented. *)
Theorem PublishEvents_empty w :
  (PublishEvents [] w).1 = (None, None) ∧
  client (PublishEvents [] w).2 = client w ∧
  wire (PublishEvents [] w).2 = wire w ∧
  ackedEvents (metrics (PublishEvents [] w).2) = ackedEvents (metrics w) ∧
  eventsNotAcked (metrics (PublishEvents [] w).2) = eventsNotAcked (metrics w) ∧
  publishEventsCallCount (metrics (PublishEvents [] w).2)
    = Int_Add (publishEventsCallCount (metrics w)) 1 ∧
  publishEventsCallCount (metrics (PublishEvents [] w).2)
    ≠ publishEventsCallCount (metrics w).
Proof.
  repeat split. cbn. apply Int_Add_1_neq.
Qed.

Lemma not_connected_refusal_batch data w :
  up w = false →
  data ≠ [] →
  PublishEvents data w = ((Some data, Some ErrNotConnected), counted w).
Proof.
  intros Hup Hdata. unfold PublishEvents, mbind, M_bind.
  fold (counted w).
  destruct (add_publishEventsCallCount 1 w) as [[] w0] eqn:Hcount.
  assert (w0 = counted w) as -> by (unfold counted; by rewrite Hcount).
  rewrite (len_nonzero data Hdata). unfold getConn.
  fold (up (counted w)). by rewrite up_counted, Hup.
Qed.

(** C7. While the connected flag is false, [PublishEvents] hands a
    non-empty batch back unchanged together with [ErrNotConnected], and
    [PublishEvent] returns [ErrNotConnected]; neither performs an HTTP
    exchange. *)
Theorem not_connected_is_refused data d w :
  up w = false →
  data ≠ [] →
  (PublishEvents data w).1 = (Some data, Some ErrNotConnected) ∧
  wire (PublishEvents data w).2 = wire w ∧
  PublishEvent d w = (Some ErrNotConnected, w).
Proof.
  intros Hup Hdata.
  assert (PublishEvent d w = (Some ErrNotConnected, w)) as Hone.
  { unfold PublishEvent, mbind, M_bind, getConn. fold (up w). by rewrite Hup. }
  rewrite (not_connected_refusal_batch data w Hup Hdata).
  split_and!; [done | apply wire_counted | exact Hone].
Qed.

(** C8. On a connected client, the events of a non-empty batch are handed
    to [PublishEvent] one at a time in the order of the batch; the first
    call that returns a non-nil error ends the batch there: the result is
    (nil, that error), the events behind it are not attempted, and the world
    is the one that call left. *)
Theorem PublishEvents_aborts_on_first_error w pre d post err w1 w2 :
  up w = true →
  published (counted w) pre w1 →
  PublishEvent d w1 = (Some err, w2) →
  PublishEvents (pre ++ d :: post) w = ((None, Some err), w2).
Proof.
  intros Hup Hpre Hd.
  rewrite PublishEvents_connected; [| by destruct pre | done].
  rewrite publishLoop_app, (published_publishLoop _ _ _ Hpre).
  cbn [publishLoop]. unfold mbind, M_bind. by rewrite Hd.
Qed.

(** When every call returns nil the whole batch is acknowledged. *)
Lemma PublishEvents_all_published w data w1 :
  up w = true →
  data ≠ [] →
  published (counted w) data w1 →
  (PublishEvents data w).1 = (None, None) ∧
  ackedEvents (metrics (PublishEvents data w).2)
    = Int_Add (ackedEvents (metrics w1)) (wrap64 (len data)) ∧
  wire (PublishEvents data w).2 = wire w1.
Proof.
  intros Hup Hdata Hall.
  rewrite PublishEvents_connected by done.
  rewrite (published_publishLoop _ _ _ Hall). cbn.
  by rewrite Z.sub_0_r.
Qed.

(** C10. The slice of unsent events returned by [PublishEvents] is nil,
    except on a disconnected client with a non-empty batch, where it is the
    whole batch paired with [ErrNotConnected]; it is never a proper part of
    the batch. *)
Theorem PublishEvents_unsent_all_or_nothing data w :
  (PublishEvents data w).1.1 = None ∨
  ((PublishEvents data w).1 = (Some data, Some ErrNotConnected) ∧
   up w = false ∧ data ≠ []).
Proof.
  destruct data as [| d rest]; [by left |].
  destruct (up w) eqn:Hup.
  - left. rewrite PublishEvents_connected by done.
    by destruct (publishLoop (d :: rest) (counted w)) as [[e |] w1].
  - right. split_and!; [| done | done].
    by rewrite (not_connected_refusal_batch (d :: rest) w).
Qed.

(** ** What one call of [PublishEvent] leaves behind *)

Lemma PublishEvent_metrics d w : metrics (PublishEvent d w).2 = metrics w.
Proof. run. cases; done. Qed.

Lemma PublishEvent_down d w :
  up w = false → PublishEvent d w = (Some ErrNotConnected, w).
Proof.
  intros Hup. unfold PublishEvent, mbind, M_bind, getConn.
  fold (up w). by rewrite Hup.
Qed.

(** X1. The errors [PublishEvent] can return are [ErrNotConnected], from a
    disconnected client that is left untouched, and the error made from the
    status line of a response with status 500 or more, or 429.  Transport,
    encoding, request-construction and body-read errors are never returned. *)
Theorem PublishEvent_error_kinds d w e :
  (PublishEvent d w).1 = Some e →
  (e = ErrNotConnected ∧ up w = false ∧ (PublishEvent d w).2 = w) ∨
  (∃ req resp,
      wire (PublishEvent d w).2 = wire w ++ [(req, DoResp resp)] ∧
      (500 ≤ StatusCode resp ∨ StatusCode resp = 429) ∧
      e = Errorf (Status resp)).
Proof.
  destruct (up w) eqn:Hup.
  - intros He. right. revert He. run. rewrite Hup. cbn.
    destruct (Marshal _ _) as [[merr |] enc]; cbn; [by case_decide |].
    destruct (NewRequest_reject _ _); cbn; [by case_decide |].
    match goal with |- context [http ?c ?l ?r] =>
      destruct (http c l r) as [msg | resp] eqn:Hdo end; cbn.
    { by case_decide. }
    destruct (Z.geb_spec (StatusCode resp) 300) as [Hge | Hlt]; cbn.
    + unfold classify.
      destruct (Z.eqb_spec (StatusCode resp) 0); [done |].
      destruct (Z.geb_spec (StatusCode resp) 500) as [Hhi | Hlo]; cbn.
      * intros [= <-]. eexists _, resp. split_and!; [done | lia | done].
      * destruct (Z.eqb_spec (StatusCode resp) 429) as [Heq | Hne]; cbn.
        -- intros [= <-]. eexists _, resp. split_and!; [done | lia | done].
        -- by destruct (_ && _).
    + destruct (RespBody resp); cbn; [| case_decide; [done |]];
        rewrite classify_drop by lia; done.
  - rewrite (PublishEvent_down d w Hup). intros [= <-]. by left.
Qed.

Lemma classify_nil (status : Z) : classify status None = None.
Proof. unfold classify. by repeat case_match. Qed.

(** An error returned by [PublishEvent] comes with a disconnected client. *)
Lemma PublishEvent_error_means_down d w :
  (PublishEvent d w).1 ≠ None → up (PublishEvent d w).2 = false.
Proof.
  run. cases; rewrite ?classify_nil; try done.
  all: by destruct (connected _).
Qed.

(** X2. An error returned by [PublishEvents] always comes with a
    disconnected client: the caller has to [Connect] before it retries. *)
Theorem PublishEvents_error_means_down data w :
  (PublishEvents data w).1.2 ≠ None →
  up (PublishEvents data w).2 = false.
Proof.
  destruct data as [| d0 rest]; [done |].
  destruct (up w) eqn:Hup.
  - rewrite PublishEvents_connected by done.
    destruct (publishLoop_cases (d0 :: rest) (counted w))
      as [(w1 & _ & ->) | (pre & d & post & err & w1 & w2 & _ & _ & Hd & ->)];
      [done |].
    intros _. cbn.
    replace w2 with (PublishEvent d w1).2 by (by rewrite Hd).
    apply PublishEvent_error_means_down. by rewrite Hd.
  - intros _. by rewrite not_connected_refusal_batch.
Qed.

(** The connected flag is never raised by a publish attempt. *)
Lemma PublishEvent_never_connects d w :
  up (PublishEvent d w).2 = true → up w = true.
Proof. run. cases; done. Qed.

Lemma published_never_connects w data w1 :
  published w data w1 → up w1 = true → up w = true.
Proof.
  induction 1 as [| w d w1 rest w2 Hd _ IH]; [done |].
  intros Hup. apply (PublishEvent_never_connects d). rewrite Hd. by apply IH.
Qed.

Lemma published_metrics w data w1 :
  published w data w1 → metrics w1 = metrics w.
Proof.
  induction 1 as [| w d w1 rest w2 Hd _ IH]; [done |].
  rewrite IH. replace w1 with (PublishEvent d w).2 by (by rewrite Hd).
  apply PublishEvent_metrics.
Qed.

(** X3. Publishing never turns a disconnected client into a connected
    one: if the client is connected after [PublishEvents], it was connected
    before.  Only [Connect] raises the flag. *)
Theorem PublishEvents_never_connects data w :
  up (PublishEvents data w).2 = true → up w = true.
Proof.
  destruct data as [| d0 rest]; [done |].
  destruct (up w) eqn:Hup; [done |].
  rewrite not_connected_refusal_batch by done.
  change (up (counted w) = true → false = true).
  by rewrite up_counted, Hup.
Qed.

(** ** Requests as they go out *)

(** X4. When [http.NewRequest] rejects the URL of the endpoint, the event
    is dropped: the request path returns status 0 with the library's error,
    nothing is exchanged, the client stays connected and [PublishEvent]
    returns nil. *)
Theorem rejected_request_is_dropped d w enc msg :
  up w = true →
  Marshal (Event d) (encoder (conn (client w))) = (None, enc) →
  NewRequest_reject "POST"
    (makeURL (URL (conn (client w))) "" "" (params (client w))) = Some msg →
  (request "POST" "" (params (client w)) (Some (Event d)) w).1
    = (0, None, Some (LibError msg)) ∧
  (PublishEvent d w).1 = None ∧
  wire (PublishEvent d w).2 = wire w ∧
  up (PublishEvent d w).2 = true.
Proof.
  intros Hup Hmarshal Hreject. run.
  repeat (rewrite ?Hup, ?Hmarshal, ?Hreject; cbn).
  done.
Qed.

(** X5. The request that [PublishEvent] puts on the wire is a POST to the
    URL made from the base URL and the static parameters; its body is the
    encoder's buffer after marshalling this event, its headers are the
    encoder's followed by [Accept: application/json], and the recorded
    outcome is what the HTTP client answered to that request. *)
Theorem PublishEvent_request_shape d w req r :
  wire (PublishEvent d w).2 = wire w ++ [(req, r)] →
  ∃ enc,
    Marshal (Event d) (encoder (conn (client w))) = (None, enc) ∧
    Method req = "POST" ∧
    ReqURL req = makeURL (URL (conn (client w))) "" "" (params (client w)) ∧
    ReqBody req = Some (Reader enc) ∧
    ReqHeader req = AddHeader enc [] ++ [("Accept", "application/json")] ∧
    r = http (conn (client w)) (wire w) req.
Proof.
  intros Hwire. run. cases.
  all: eexists; split_and!; try done.
Qed.

(** X6. Basic-auth credentials are attached to the outgoing request
    exactly when the user name or the password is non-empty. *)
Theorem PublishEvent_basic_auth d w req r :
  wire (PublishEvent d w).2 = wire w ++ [(req, r)] →
  (Username (conn (client w)) = "" ∧ Password (conn (client w)) = "" ∧
   BasicAuth req = None) ∨
  ((Username (conn (client w)) ≠ "" ∨ Password (conn (client w)) ≠ "") ∧
   BasicAuth req
     = Some (Username (conn (client w)), Password (conn (client w)))).
Proof.
  intros Hwire. run. cases; zbool.
  all: rewrite ?String.eqb_neq, ?String.eqb_eq in *.
  all: tauto.
Qed.

(** X7. A request without a body does not look at the connected flag and
    does not touch the encoder: once [http.NewRequest] accepts the URL,
    exactly one exchange is performed, for a request that has no body and no
    header from the encoder. *)
Theorem request_without_body method path p w :
  NewRequest_reject method (makeURL (URL (conn (client w))) path "" p) = None →
  encoder (conn (client (request method path p None w).2))
    = encoder (conn (client w)) ∧
  ∃ req,
    wire (request method path p None w).2
      = wire w ++ [(req, http (conn (client w)) (wire w) req)] ∧
    Method req = method ∧
    ReqURL req = makeURL (URL (conn (client w))) path "" p ∧
    ReqBody req = None ∧
    ReqHeader req = [("Accept", "application/json")].
Proof.
  intros Hok. run. rewrite Hok. cbn.
  destruct (_ || _).
  all: match goal with |- context [http ?c ?l ?q] =>
         destruct (http c l q) as [msg | resp] eqn:Hdo end; cbn.
  all: split; [by repeat case_match |].
  all: eexists; split;
    [ rewrite <- Hdo; repeat case_match; reflexivity | done ].
Qed.

(** ** Counters and transcript of a batch *)

Lemma wrap64_int64 (z : Z) : int64 z → wrap64 z = z.
Proof.
  unfold int64, wrap64.
  change (2 ^ 64) with 18446744073709551616.
  change (2 ^ 63) with 9223372036854775808.
  intros Hz. rewrite Z.mod_small; lia.
Qed.

Lemma publishLoop_metrics data w : metrics (publishLoop data w).2 = metrics w.
Proof.
  revert w. induction data as [| d rest IH]; intros w; [done |].
  cbn [publishLoop]. unfold mbind, M_bind.
  destruct (PublishEvent d w) as [[e |] w'] eqn:Hd.
  - cbn. replace w' with (PublishEvent d w).2 by (by rewrite Hd).
    apply PublishEvent_metrics.
  - rewrite IH. replace w' with (PublishEvent d w).2 by (by rewrite Hd).
    apply PublishEvent_metrics.
Qed.

Lemma publishLoop_wire data w :
  ∃ l, wire (publishLoop data w).2 = wire w ++ l ∧ (length l ≤ length data)%nat.
Proof.
  revert w. induction data as [| d rest IH]; intros w.
  - exists []. split; [by rewrite app_nil_r | done].
  - cbn [publishLoop]. unfold mbind, M_bind.
    assert (∃ l1, wire (PublishEvent d w).2 = wire w ++ l1 ∧ (length l1 ≤ 1)%nat)
      as (l1 & Hone & Hlen1).
    { destruct (PublishEvent_wire d w) as [Hsame | [req Hsent]].
      - exists []. split; [by rewrite app_nil_r | cbn; lia].
      - eexists [_]. split; [exact Hsent | done]. }
    destruct (PublishEvent d w) as [[e |] w'] eqn:Hd; cbn in Hone.
    + exists l1. split; [done | cbn; lia].
    + destruct (IH w') as (l2 & Hrest & Hlen2).
      exists (l1 ++ l2). rewrite Hrest, Hone, length_app, app_assoc.
      split; [done | cbn; lia].
Qed.

Ltac counters :=
  unfold add_eventsNotAcked, add_ackedEvents, add_publishEventsCallCount,
    counted, getMetrics, putMetrics, mbind, M_bind in *;
  cbn in *.

(** X8. Every call of [PublishEvents] adds one to the publish-events call
    counter, whatever the batch, the state of the connection and the
    outcome. *)
Theorem PublishEvents_counts_every_call data w :
  publishEventsCallCount (metrics (PublishEvents data w).2)
    = Int_Add (publishEventsCallCount (metrics w)) 1.
Proof.
  destruct data as [| d0 rest]; [done |].
  destruct (up w) eqn:Hup.
  - rewrite PublishEvents_connected by done.
    pose proof (publishLoop_metrics (d0 :: rest) (counted w)) as Hm.
    destruct (publishLoop (d0 :: rest) (counted w)) as [[e |] w1];
      counters; by rewrite Hm.
  - by rewrite not_connected_refusal_batch.
Qed.

(** X9. When [PublishEvents] returns an error, the acked and not-acked
    counters are left as they were, although the events in front of the
    failing one have been delivered. *)
Theorem PublishEvents_error_counts_nothing data w :
  (PublishEvents data w).1.2 ≠ None →
  ackedEvents (metrics (PublishEvents data w).2) = ackedEvents (metrics w) ∧
  eventsNotAcked (metrics (PublishEvents data w).2) = eventsNotAcked (metrics w).
Proof.
  destruct data as [| d0 rest]; [done |].
  destruct (up w) eqn:Hup.
  - rewrite PublishEvents_connected by done.
    pose proof (publishLoop_metrics (d0 :: rest) (counted w)) as Hm.
    destruct (publishLoop (d0 :: rest) (counted w)) as [[e |] w1];
      counters; [by rewrite Hm | done].
  - by rewrite not_connected_refusal_batch.
Qed.

(** X10. When [PublishEvents] returns a nil error for a non-empty batch,
    the acked counter grows by the size of the whole batch: dropped events
    are counted as acknowledged too. *)
Theorem PublishEvents_success_acks_whole_batch data w :
  data ≠ [] →
  (PublishEvents data w).1.2 = None →
  (PublishEvents data w).1 = (None, None) ∧
  ackedEvents (metrics (PublishEvents data w).2)
    = Int_Add (ackedEvents (metrics w)) (wrap64 (len data)).
Proof.
  intros Hdata.
  destruct (up w) eqn:Hup.
  - rewrite PublishEvents_connected by done.
    pose proof (publishLoop_metrics data (counted w)) as Hm.
    destruct (publishLoop data (counted w)) as [[e |] w1];
      counters; [done |].
    intros _. by rewrite Hm, Z.sub_0_r.
  - by rewrite not_connected_refusal_batch.
Qed.

(** X11. The not-acked counter never moves: [PublishEvents] only ever adds
    the length of a slice it never appends to. *)
Theorem PublishEvents_never_counts_not_acked data w :
  int64 (eventsNotAcked (metrics w)) →
  eventsNotAcked (metrics (PublishEvents data w).2) = eventsNotAcked (metrics w).
Proof.
  intros Hrange.
  destruct data as [| d0 rest]; [done |].
  destruct (up w) eqn:Hup.
  - rewrite PublishEvents_connected by done.
    pose proof (publishLoop_metrics (d0 :: rest) (counted w)) as Hm.
    destruct (publishLoop (d0 :: rest) (counted w)) as [[e |] w1];
      counters; rewrite Hm; cbn; [done |].
    unfold Int_Add. change (wrap64 0) with 0.
    by rewrite Z.add_0_r, wrap64_int64.
  - by rewrite not_connected_refusal_batch.
Qed.

(** X12. [PublishEvents] only appends to the transcript, and performs at
    most one exchange per event of the batch. *)
Theorem PublishEvents_exchanges_bounded data w :
  ∃ l, wire (PublishEvents data w).2 = wire w ++ l ∧
       (length l ≤ length data)%nat.
Proof.
  destruct data as [| d0 rest].
  { exists []. split; [by rewrite app_nil_r | done]. }
  destruct (up w) eqn:Hup.
  - rewrite PublishEvents_connected by done.
    destruct (publishLoop_wire (d0 :: rest) (counted w)) as (l & Hwire & Hlen).
    exists l. split; [| done].
    destruct (publishLoop (d0 :: rest) (counted w)) as [[e |] w1]; exact Hwire.
  - rewrite not_connected_refusal_batch by done.
    exists []. split; [by rewrite app_nil_r | cbn; lia].
Qed.

(** X13. An event that is dropped while the connection is reset (a
    transport failure, a 3xx or 4xx answer, an unreadable body) takes the
    rest of the batch with it: the next event is refused with
    [ErrNotConnected] without any exchange, and that is what the batch
    returns. *)
Theorem PublishEvents_drop_then_refuse w pre d next post w1 w2 :
  up w = true →
  published (counted w) pre w1 →
  PublishEvent d w1 = (None, w2) →
  up w2 = false →
  PublishEvents (pre ++ d :: next :: post) w
    = ((None, Some ErrNotConnected), w2).
Proof.
  intros Hup Hpre Hd Hdown.
  rewrite PublishEvents_connected; [| by destruct pre | done].
  rewrite publishLoop_app, (published_publishLoop _ _ _ Hpre).
  cbn [publishLoop]. unfold mbind, M_bind.
  by rewrite Hd, (PublishEvent_down next w2 Hdown).
Qed.

(** X14. A transport failure on the last event of a batch goes unnoticed:
    [PublishEvents] returns (nil, nil) and counts the whole batch as acked,
    while the client is left disconnected. *)
Theorem PublishEvents_last_transport_failure w pre d w1 req msg :
  up w = true →
  published (counted w) pre w1 →
  wire (PublishEvent d w1).2 = wire w1 ++ [(req, DoErr msg)] →
  (PublishEvents (pre ++ [d]) w).1 = (None, None) ∧
  ackedEvents (metrics (PublishEvents (pre ++ [d]) w).2)
    = Int_Add (ackedEvents (metrics w)) (wrap64 (len (pre ++ [d]))) ∧
  up (PublishEvents (pre ++ [d]) w).2 = false.
Proof.
  intros Hup Hpre Hwire.
  assert ((PublishEvent d w1).1 = None ∧ up (PublishEvent d w1).2 = false)
    as [Hnil Hdown].
  { revert Hwire. clear. run. intros Hwire. cases; done. }
  rewrite PublishEvents_connected; [| by destruct pre | done].
  rewrite publishLoop_app, (published_publishLoop _ _ _ Hpre).
  cbn [publishLoop]. unfold mbind, M_bind.
  pose proof (PublishEvent_metrics d w1) as Hm.
  destruct (PublishEvent d w1) as [res w2]. cbn in Hnil, Hdown, Hm. subst res.
  pose proof (published_metrics _ _ _ Hpre) as Hm1.
  counters. rewrite Hm, Hm1, Z.sub_0_r.
  split_and!; [done | done | exact Hdown].
Qed.

(** ** Connect and Close *)

Lemma classify_not_refused (status : Z) (err : option error) :
  err ≠ Some ErrNotConnected → classify status err ≠ Some ErrNotConnected.
Proof. intros Herr. unfold classify. by repeat case_match. Qed.

(** A connected client answers with the outcome of an attempt, never with
    [ErrNotConnected]. *)
Lemma PublishEvent_up_not_refused d w :
  up w = true → (PublishEvent d w).1 ≠ Some ErrNotConnected.
Proof.
  intros Hup. run. rewrite Hup. cbn.
  cases; try done; by apply classify_not_refused.
Qed.

(** X15. [Connect] performs no exchange and returns nil, and a publish
    attempt made right after it is never refused with [ErrNotConnected],
    whatever happened to the connection before. *)
Theorem Connect_rearms timeout d w :
  (Connect timeout w).1 = None ∧
  wire (Connect timeout w).2 = wire w ∧
  metrics (Connect timeout w).2 = metrics w ∧
  up (Connect timeout w).2 = true ∧
  (PublishEvent d (Connect timeout w).2).1 ≠ Some ErrNotConnected.
Proof.
  split_and!; try done.
  by apply PublishEvent_up_not_refused.
Qed.

(** X16. After [Close], a non-empty batch is handed back whole with
    [ErrNotConnected] and nothing is exchanged, whatever the state of the
    connection was before. *)
Theorem Close_refuses data w :
  data ≠ [] →
  (Close w).1 = None ∧
  (PublishEvents data (Close w).2).1 = (Some data, Some ErrNotConnected) ∧
  wire (PublishEvents data (Close w).2).2 = wire w.
Proof.
  intros Hdata. split; [done |].
  by rewrite (not_connected_refusal_batch data (Close w).2).
Qed.

End Properties.

(** * The client at work on the test bench *)

Lemma PublishEvent_retryable_status_503 :
  (PublishEvent Bench.hello (Bench.world true [Bench.unavailable])).1
    = Some (Errorf "503 Service Unavailable") ∧
  up (PublishEvent Bench.hello (Bench.world true [Bench.unavailable])).2 = false.
Proof.
  edestruct (PublishEvent_retryable_status Bench.hello
               (Bench.world true [Bench.unavailable])) as (Herr & _ & Hup).
  - reflexivity.
  - left. simpl. lia.
  - split; [exact Herr | exact Hup].
Defined.

Lemma PublishEvent_terminal_status_404 :
  (PublishEvent Bench.hello (Bench.world true [Bench.not_found])).1 = None.
Proof.
  eapply (PublishEvent_terminal_status Bench.hello
            (Bench.world true [Bench.not_found])).
  - reflexivity.
  - simpl. lia.
  - simpl. lia.
Defined.

Lemma PublishEvent_transport_error_handshake :
  up (PublishEvent Bench.hello (Bench.world true [Bench.handshake])).2 = false ∧
  (PublishEvent Bench.hello (Bench.world true [Bench.handshake])).1 = None.
Proof.
  edestruct (PublishEvent_transport_error Bench.hello
               (Bench.world true [Bench.handshake])) as (Hup & _ & Hnil).
  - reflexivity.
  - split; [exact Hup | exact Hnil].
Defined.

(** The error of a failed TLS handshake is not what [PublishEvent] returns. *)
Lemma handshake_error_is_not_returned :
  (snd <$> wire (PublishEvent Bench.hello (Bench.world true [Bench.handshake])).2)
    = [DoErr "remote error: tls: handshake failure"] ∧
  (PublishEvent Bench.hello (Bench.world true [Bench.handshake])).1
    ≠ Some (LibError "remote error: tls: handshake failure").
Proof. split; [reflexivity | discriminate]. Qed.



Lemma PublishEvent_client_error_disconnects_404 :
  up (Bench.world true [Bench.not_found]) = true ∧
  up (PublishEvent Bench.hello (Bench.world true [Bench.not_found])).2 = false.
Proof.
  eapply (PublishEvent_client_error_disconnects Bench.hello
            (Bench.world true [Bench.not_found])).
  - reflexivity.
  - simpl. lia.
  - simpl. lia.
Defined.

(** A 404 answer does not leave the connected flag as it was. *)
Lemma not_found_resets_connected :
  (snd <$> wire (PublishEvent Bench.hello (Bench.world true [Bench.not_found])).2)
    = [Bench.not_found] ∧
  up (PublishEvent Bench.hello (Bench.world true [Bench.not_found])).2
    ≠ up (Bench.world true [Bench.not_found]).
Proof. split; [reflexivity | discriminate]. Qed.

Lemma unencodable_event_is_dropped_func :
  (request "POST" "" ∅ (Some (Event Bench.broken)) (Bench.world true [Bench.ok])).1
    = (0, None, Some ErrJSONEncodeFailed) ∧
  wire (request "POST" "" ∅ (Some (Event Bench.broken))
          (Bench.world true [Bench.ok])).2 = [] ∧
  (PublishEvent Bench.broken (Bench.world true [Bench.ok])).1 = None ∧
  wire (PublishEvent Bench.broken (Bench.world true [Bench.ok])).2 = [] ∧
  up (PublishEvent Bench.broken (Bench.world true [Bench.ok])).2 = true.
Proof.
  edestruct (unencodable_event_is_dropped Bench.broken
               (Bench.world true [Bench.ok]) "POST" "" ∅)
    as (Hreq & Hwire & _ & Hpub).
  - reflexivity.
  - destruct Hpub as (Hnil & Hquiet & Hup); [reflexivity |].
    repeat split; assumption.
Defined.

(** An empty batch still counts as one call of [PublishEvents]. *)
Lemma empty_batch_is_counted :
  (PublishEvents Bench.no_events (Bench.world true [])).1 = (None, None) ∧
  publishEventsCallCount (metrics (Bench.world true [])) = 0 ∧
  publishEventsCallCount
    (metrics (PublishEvents Bench.no_events (Bench.world true [])).2) = 1.
Proof. repeat split. Qed.

Lemma not_connected_is_refused_down :
  (PublishEvents [Bench.hello; Bench.broken] (Bench.world false [Bench.ok])).1
    = (Some [Bench.hello; Bench.broken], Some ErrNotConnected) ∧
  wire (PublishEvents [Bench.hello; Bench.broken]
          (Bench.world false [Bench.ok])).2 = [] ∧
  PublishEvent Bench.hello (Bench.world false [Bench.ok])
    = (Some ErrNotConnected, Bench.world false [Bench.ok]).
Proof.
  apply (not_connected_is_refused [Bench.hello; Bench.broken] Bench.hello
           (Bench.world false [Bench.ok])).
  - reflexivity.
  - discriminate.
Defined.

(** 200, then 503 on the second of three events: the third is never sent. *)
Lemma PublishEvents_aborts_on_second_of_three :
  (PublishEvents [Bench.hello; Bench.hello; Bench.hello]
     (Bench.world true [Bench.ok; Bench.unavailable; Bench.ok])).1
    = (None, Some (Errorf "503 Service Unavailable")) ∧
  (snd <$> wire (PublishEvents [Bench.hello; Bench.hello; Bench.hello]
                   (Bench.world true [Bench.ok; Bench.unavailable; Bench.ok])).2)
    = [Bench.ok; Bench.unavailable].
Proof.
  rewrite (PublishEvents_aborts_on_first_error
             (Bench.world true [Bench.ok; Bench.unavailable; Bench.ok])
             [Bench.hello] Bench.hello [Bench.hello]
             (Errorf "503 Service Unavailable")
             (PublishEvent Bench.hello
                (counted (Bench.world true [Bench.ok; Bench.unavailable; Bench.ok]))).2
             (PublishEvent Bench.hello
                (PublishEvent Bench.hello
                   (counted (Bench.world true [Bench.ok; Bench.unavailable; Bench.ok]))).2).2).
  - split; reflexivity.
  - reflexivity.
  - eapply published_cons; [| apply published_nil]. reflexivity.
  - reflexivity.
Defined.

(** * Construction *)

Section ConstructionProperties.

Context {E Ev TLS : Type} `{!bodyEncoder E Ev} `{!Platform} `{!Stack E TLS}.

(** A client as [NewClient] returned it, after use: only the connected flag
    and the encoder's buffer are ever assigned to. *)
Lemma NewClient_fields hostURL proxy (tls : option TLS) username password
    static timeout compression (c : @Client E) :
  (NewClient hostURL proxy tls username password static timeout compression).1
    = Some c →
  URL (conn c) = hostURL ∧ Username (conn c) = username ∧
  Password (conn c) = password ∧ proxyURL c = proxy ∧
  params c = static ∧ compressionLevel c = 0 ∧
  connected (conn c) = false.
Proof.
  unfold NewClient. destruct (if compression =? 0 then _ else _); [done |].
  intros [= <-]. done.
Qed.

(** X17. A client fresh from [NewClient] is not connected: until [Connect]
    is called, a non-empty batch is handed back whole with
    [ErrNotConnected] and nothing is exchanged. *)
Theorem new_client_refuses hostURL proxy (tls : option TLS) username password
    static timeout compression (c : @Client E) (m : Metrics)
    (l : list Exchange) (data : list (@Data Ev)) :
  (NewClient hostURL proxy tls username password static timeout compression).1
    = Some c →
  data ≠ [] →
  (PublishEvents data (mkWorld c m l)).1 = (Some data, Some ErrNotConnected) ∧
  wire (PublishEvents data (mkWorld c m l)).2 = l.
Proof.
  intros Hnew Hdata.
  destruct (NewClient_fields _ _ _ _ _ _ _ _ _ Hnew) as (_ & _ & _ & _ & _ & _ & Hdown).
  by rewrite (not_connected_refusal_batch data (mkWorld c m l) Hdown Hdata).
Qed.

(** X18. [NewClient] does not store the compression level, so a clone of a
    client it built, in whatever state of use, always exists and carries
    the plain JSON encoder, even when the original compresses.  The clone
    is disconnected, has no static parameters, and keeps the URL, the
    credentials and the proxy URL. *)
Theorem Clone_of_new_client hostURL proxy (tls : option TLS) username password
    static timeout compression (c : @Client E) (flag : bool) (buffer : E) :
  (NewClient hostURL proxy tls username password static timeout compression).1
    = Some c →
  ∃ c',
    Clone (mkClient (mkConnection (URL (conn c)) (Username (conn c))
                                  (Password (conn c)) (http (conn c))
                                  flag buffer)
                    (params c) (compressionLevel c) (proxyURL c))
      = Some c' ∧
    encoder (conn c') = newJSONEncoder ∧
    connected (conn c') = false ∧
    params c' = ∅ ∧
    URL (conn c') = hostURL ∧
    Username (conn c') = username ∧
    Password (conn c') = password ∧
    proxyURL c' = proxy.
Proof.
  intros Hnew.
  destruct (NewClient_fields _ _ _ _ _ _ _ _ _ Hnew)
    as (Hurl & Huser & Hpass & Hproxy & _ & Hlevel & _).
  unfold Clone, NewClient. cbn. rewrite Hlevel. cbn.
  eexists. split; [reflexivity |]. cbn.
  by rewrite Hurl, Huser, Hpass, Hproxy.
Qed.

End ConstructionProperties.

(** * The output factory *)

Section FactoryProperties.

Context {Cfg TLSSettings TLSConfig Observer NetworkClient Group : Type}
        `{!Output.Libbeat Cfg TLSSettings TLSConfig Observer NetworkClient Group}.

Implicit Types (config : Output.config TLSSettings) (tlsConfig : TLSConfig)
  (proxyURL : option string) (ps : option (gmap string string))
  (observer : Observer) (hosts : list string).

Lemma makeClients_all_built config tlsConfig proxyURL ps observer hosts :
  Forall (λ host, ∃ client,
            Output.built config tlsConfig proxyURL ps observer host client) hosts →
  ∃ clients,
    Output.makeClients config tlsConfig proxyURL ps observer hosts = inr clients ∧
    Forall2 (Output.built config tlsConfig proxyURL ps observer) hosts clients.
Proof.
  induction 1 as [| host rest (client & hostURL & c & Hurl & Hnew & ->) _ IH].
  - exists []. split; [done | constructor].
  - destruct IH as (clients & Hrest & Hall).
    eexists (_ :: clients). cbn [Output.makeClients].
    rewrite Hurl, Hnew, Hrest. split; [done |].
    constructor; [by exists hostURL, c | done].
Qed.

Lemma makeClients_first_failure config tlsConfig proxyURL ps observer
    pre host post err :
  Forall (λ host, ∃ client,
            Output.built config tlsConfig proxyURL ps observer host client) pre →
  Output.fails config tlsConfig proxyURL ps observer host err →
  Output.makeClients config tlsConfig proxyURL ps observer (pre ++ host :: post)
    = inl err.
Proof.
  intros Hpre Hfail.
  induction Hpre as [| h rest (client & hostURL & c & Hurl & Hnew & ->) _ IH].
  - cbn [app Output.makeClients].
    destruct Hfail as [Hurl | (hostURL & Hurl & Hnew)].
    + by rewrite Hurl.
    + by rewrite Hurl, Hnew.
  - cbn [app Output.makeClients]. by rewrite Hurl, Hnew, IH.
Qed.

(** The parameters handed to the clients: nil when the configured map is
    nil or empty. *)
Lemma normalised_parameters (m : option (gmap string string)) :
  (if Output.map_len m =? 0 then None else m) ≠ Some ∅.
Proof.
  destruct m as [m |]; cbn; [| done].
  destruct (Z.eqb_spec (Z.of_nat (size m)) 0) as [| Hne]; [done |].
  intros [= ->]. by rewrite map_size_empty in Hne.
Qed.

(** X19. When the configuration is read and every host can be turned into
    a client, [MakeHTTP] succeeds with exactly one client per host, in the
    order of the host list; each was made for the URL of its host on port
    443 for https and 80 otherwise, and wrapped with the configured backoff.
    The parameters given to the clients are never an empty non-nil map. *)
Theorem MakeHTTP_one_client_per_host {IndexManager Info : Type}
    (im : IndexManager) (beat : Info) observer (cfg : Cfg)
    config tlsConfig hosts proxyURL :
  Output.Unpack cfg Output.defaultConfig = inr config →
  Output.LoadTLSConfig (Output.TLS config) = inr tlsConfig →
  Output.ReadHostList cfg = inr hosts →
  Output.parseProxyURL (Output.ProxyURL config) = inr proxyURL →
  Forall (λ host, ∃ client,
            Output.built config tlsConfig proxyURL
              (if Output.map_len (Output.Params config) =? 0 then None
               else Output.Params config)
              observer host client) hosts →
  ∃ clients,
    Output.MakeHTTP im beat observer cfg
      = Output.SuccessNet (Output.LoadBalance config) (Output.BatchSize config)
                          (Output.MaxRetries config) clients ∧
    length clients = length hosts ∧
    Forall2 (Output.built config tlsConfig proxyURL
               (if Output.map_len (Output.Params config) =? 0 then None
                else Output.Params config)
               observer) hosts clients ∧
    (if Output.map_len (Output.Params config) =? 0 then None
     else Output.Params config) ≠ Some ∅.
Proof.
  intros Hconfig Htls Hhosts Hproxy Hall.
  destruct (makeClients_all_built _ _ _ _ _ _ Hall) as (clients & Hloop & Hbuilt).
  exists clients. unfold Output.MakeHTTP.
  rewrite Hconfig, Htls, Hhosts, Hproxy, Hloop.
  split_and!; [done | | done | apply normalised_parameters].
  symmetry. by eapply Forall2_length.
Qed.

(** X20. The first host whose URL is rejected, or for which no client can
    be made, fails the whole output with that error: the clients already
    made for the hosts in front of it are given up. *)
Theorem MakeHTTP_first_bad_host {IndexManager Info : Type}
    (im : IndexManager) (beat : Info) observer (cfg : Cfg)
    config tlsConfig proxyURL pre host post err :
  Output.Unpack cfg Output.defaultConfig = inr config →
  Output.LoadTLSConfig (Output.TLS config) = inr tlsConfig →
  Output.ReadHostList cfg = inr (pre ++ host :: post) →
  Output.parseProxyURL (Output.ProxyURL config) = inr proxyURL →
  Forall (λ host, ∃ client,
            Output.built config tlsConfig proxyURL
              (if Output.map_len (Output.Params config) =? 0 then None
               else Output.Params config)
              observer host client) pre →
  Output.fails config tlsConfig proxyURL
    (if Output.map_len (Output.Params config) =? 0 then None
     else Output.Params config)
    observer host err →
  Output.MakeHTTP im beat observer cfg = Output.Fail err.
Proof.
  intros Hconfig Htls Hhosts Hproxy Hpre Hfail. unfold Output.MakeHTTP.
  rewrite Hconfig, Htls, Hhosts, Hproxy.
  by rewrite (makeClients_first_failure _ _ _ _ _ _ _ _ _ Hpre Hfail).
Qed.

End FactoryProperties.

(** * More runs on the test benches *)

Lemma PublishEvent_error_kinds_503 :
  ∃ req resp,
    wire (PublishEvent Bench.hello (Bench.world true [Bench.unavailable])).2
      = [(req, DoResp resp)] ∧
    StatusCode resp = 503.
Proof.
  destruct (PublishEvent_error_kinds Bench.hello
              (Bench.world true [Bench.unavailable])
              (Errorf "503 Service Unavailable"))
    as [(Hne & _) | (req & resp & Hwire & _ & Herr)].
  - reflexivity.
  - discriminate Hne.
  - exists req, resp. split; [exact Hwire |].
    cbn in Hwire. injection Hwire as _ <-. reflexivity.
Defined.

Lemma PublishEvents_error_means_down_503 :
  up (PublishEvents [Bench.hello; Bench.hello]
        (Bench.world true [Bench.ok; Bench.unavailable])).2 = false.
Proof.
  apply (PublishEvents_error_means_down [Bench.hello; Bench.hello]
           (Bench.world true [Bench.ok; Bench.unavailable])).
  discriminate.
Defined.

Lemma PublishEvents_never_connects_200 :
  up (Bench.world true [Bench.ok]) = true.
Proof.
  apply (PublishEvents_never_connects [Bench.hello] (Bench.world true [Bench.ok])).
  reflexivity.
Defined.

Lemma rejected_request_is_dropped_no_scheme :
  (PublishEvent Bench.hello (Rig.world_at ":9200/beats" "" "" [Bench.ok])).1 = None ∧
  wire (PublishEvent Bench.hello (Rig.world_at ":9200/beats" "" "" [Bench.ok])).2 = [] ∧
  up (PublishEvent Bench.hello (Rig.world_at ":9200/beats" "" "" [Bench.ok])).2 = true.
Proof.
  edestruct (rejected_request_is_dropped Bench.hello
               (Rig.world_at ":9200/beats" "" "" [Bench.ok]))
    as (_ & Hnil & Hwire & Hup).
  - reflexivity.
  - reflexivity.
  - reflexivity.
  - split_and!; [exact Hnil | exact Hwire | exact Hup].
Defined.

Lemma PublishEvent_request_shape_hello :
  ∃ req,
    wire (PublishEvent Bench.hello (Bench.world true [Bench.ok])).2
      = [(req, Bench.ok)] ∧
    Method req = "POST" ∧
    ReqURL req = "http://example.com/foo" ∧
    ReqHeader req = [("Content-Type", "application/json; charset=UTF-8");
                     ("Accept", "application/json")].
Proof.
  eexists. split; [reflexivity |].
  edestruct (PublishEvent_request_shape Bench.hello (Bench.world true [Bench.ok]))
    as (enc & Hmarshal & Hmethod & Hurl & _ & Hheader & _).
  - reflexivity.
  - cbn in Hmarshal. injection Hmarshal as <-.
    split_and!; [exact Hmethod | exact Hurl | exact Hheader].
Defined.

Lemma PublishEvent_basic_auth_secret :
  ∃ req,
    wire (PublishEvent Bench.hello
            (Rig.world_at "http://example.com" "beat" "" [Bench.ok])).2
      = [(req, Bench.ok)] ∧
    BasicAuth req = Some ("beat", "").
Proof.
  eexists. split; [reflexivity |].
  edestruct (PublishEvent_basic_auth Bench.hello
               (Rig.world_at "http://example.com" "beat" "" [Bench.ok]))
    as [(Huser & _) | (_ & Hauth)].
  - reflexivity.
  - discriminate Huser.
  - exact Hauth.
Defined.

Lemma request_without_body_get :
  ∃ req,
    wire (request "GET" "/status" ∅ (None : option Bench.MapStr)
            (Bench.world false [Bench.ok])).2 = [(req, Bench.ok)] ∧
    ReqBody req = None ∧
    ReqHeader req = [("Accept", "application/json")].
Proof.
  edestruct (request_without_body (Ev := Bench.MapStr) "GET" "/status" ∅
               (Bench.world false [Bench.ok]))
    as (_ & req & Hwire & _ & _ & Hbody & Hheader).
  - reflexivity.
  - exists req. split_and!; [exact Hwire | exact Hbody | exact Hheader].
Defined.

Lemma PublishEvents_error_counts_nothing_503 :
  ackedEvents (metrics (PublishEvents [Bench.hello; Bench.hello]
                          (Bench.world true [Bench.ok; Bench.unavailable])).2) = 0 ∧
  eventsNotAcked (metrics (PublishEvents [Bench.hello; Bench.hello]
                             (Bench.world true [Bench.ok; Bench.unavailable])).2) = 0.
Proof.
  apply (PublishEvents_error_counts_nothing [Bench.hello; Bench.hello]
           (Bench.world true [Bench.ok; Bench.unavailable])).
  discriminate.
Defined.

(** Two events, the second answered with 404: both are counted as acked. *)
Lemma PublishEvents_success_acks_whole_batch_404 :
  (PublishEvents [Bench.hello; Bench.hello]
     (Bench.world true [Bench.ok; Bench.not_found])).1 = (None, None) ∧
  ackedEvents (metrics (PublishEvents [Bench.hello; Bench.hello]
                          (Bench.world true [Bench.ok; Bench.not_found])).2) = 2.
Proof.
  apply (PublishEvents_success_acks_whole_batch [Bench.hello; Bench.hello]
           (Bench.world true [Bench.ok; Bench.not_found])).
  - discriminate.
  - reflexivity.
Defined.

Lemma PublishEvents_never_counts_not_acked_404 :
  eventsNotAcked (metrics (PublishEvents [Bench.hello; Bench.hello]
                             (Bench.world true [Bench.ok; Bench.not_found])).2) = 0.
Proof.
  apply (PublishEvents_never_counts_not_acked [Bench.hello; Bench.hello]
           (Bench.world true [Bench.ok; Bench.not_found])).
  unfold int64. cbn. lia.
Defined.

(** 404 on the first of three events: the second is refused, the third is
    never looked at, and one exchange took place. *)
Lemma PublishEvents_drop_then_refuse_404 :
  (PublishEvents [Bench.hello; Bench.hello; Bench.hello]
     (Bench.world true [Bench.not_found; Bench.ok; Bench.ok])).1
    = (None, Some ErrNotConnected) ∧
  (snd <$> wire (PublishEvents [Bench.hello; Bench.hello; Bench.hello]
                   (Bench.world true [Bench.not_found; Bench.ok; Bench.ok])).2)
    = [Bench.not_found].
Proof.
  rewrite (PublishEvents_drop_then_refuse
             (Bench.world true [Bench.not_found; Bench.ok; Bench.ok])
             [] Bench.hello Bench.hello [Bench.hello]
             (counted (Bench.world true [Bench.not_found; Bench.ok; Bench.ok]))
             (PublishEvent Bench.hello
                (counted (Bench.world true [Bench.not_found; Bench.ok; Bench.ok]))).2).
  - split; reflexivity.
  - reflexivity.
  - apply published_nil.
  - reflexivity.
  - reflexivity.
Defined.

Lemma PublishEvents_last_transport_failure_handshake :
  (PublishEvents [Bench.hello; Bench.hello]
     (Bench.world true [Bench.ok; Bench.handshake])).1 = (None, None) ∧
  ackedEvents (metrics (PublishEvents [Bench.hello; Bench.hello]
                          (Bench.world true [Bench.ok; Bench.handshake])).2) = 2 ∧
  up (PublishEvents [Bench.hello; Bench.hello]
        (Bench.world true [Bench.ok; Bench.handshake])).2 = false.
Proof.
  eapply (PublishEvents_last_transport_failure
            (Bench.world true [Bench.ok; Bench.handshake])
            [Bench.hello] Bench.hello
            (PublishEvent Bench.hello
               (counted (Bench.world true [Bench.ok; Bench.handshake]))).2).
  - reflexivity.
  - eapply published_cons; [| apply published_nil]. reflexivity.
  - reflexivity.
Defined.

Lemma Close_refuses_connected :
  (PublishEvents [Bench.hello] (Close (Bench.world true [Bench.ok])).2).1
    = (Some [Bench.hello], Some ErrNotConnected) ∧
  wire (PublishEvents [Bench.hello] (Close (Bench.world true [Bench.ok])).2).2 = [].
Proof.
  edestruct (Close_refuses [Bench.hello] (Bench.world true [Bench.ok]))
    as (_ & Hback & Hwire).
  - discriminate.
  - split; [exact Hback | exact Hwire].
Defined.

Lemma new_client_refuses_gzip :
  ∃ c,
    (NewClient "http://example.com/foo" None (Some "tls") "beat" "secret" ∅ 90 6).1
      = Some c ∧
    encoder (conn c) = (6, []) ∧
    (PublishEvents [Bench.hello] (mkWorld c Bench.zero [])).1
      = (Some [Bench.hello], Some ErrNotConnected).
Proof.
  eexists. split; [reflexivity |]. split; [reflexivity |].
  eapply (new_client_refuses "http://example.com/foo" None (Some "tls")
            "beat" "secret" ∅ 90 6).
  - reflexivity.
  - discriminate.
Defined.

(** A client built with compression level 6, connected and used: its clone
    has the plain encoder. *)
Lemma Clone_of_new_client_gzip :
  ∃ c c',
    (NewClient "http://example.com/foo" None (Some "tls") "beat" "secret"
               {[ "pipeline" := "main" ]} 90 6).1 = Some c ∧
    encoder (conn c) = (6, []) ∧
    Clone (mkClient (mkConnection (URL (conn c)) (Username (conn c))
                                  (Password (conn c)) (http (conn c))
                                  true (6, Rig.gzip_magic))
                    (params c) (compressionLevel c) (proxyURL c)) = Some c' ∧
    encoder (conn c') = (0, []) ∧
    connected (conn c') = false ∧
    params c' = ∅.
Proof.
  edestruct (Clone_of_new_client (TLS := string) "http://example.com/foo" None
               (Some "tls") "beat" "secret" {[ "pipeline" := "main" ]} 90 6)
    as (c' & Hclone & Henc & Hdown & Hparams & _).
  - reflexivity.
  - eexists _, c'. split; [reflexivity |]. split; [reflexivity |].
    split_and!; [exact Hclone | exact Henc | exact Hdown | exact Hparams].
Defined.

Lemma MakeHTTP_one_client_per_host_two :
  ∃ a b,
    Output.MakeHTTP tt tt tt ["es1:9200"; "es2:9200"]
      = (Some (true, 2048, 3, [a; b]), None) ∧
    Output.cs_URL a.1 = "https://es1:9200:443/ingest" ∧
    Output.cs_URL b.1 = "https://es2:9200:443/ingest" ∧
    Output.cs_Parameters a.1 = None ∧
    a.2 = Some (1, 60).
Proof.
  edestruct (MakeHTTP_one_client_per_host tt tt tt ["es1:9200"; "es2:9200"])
    as (clients & Hmade & Hlen & Hbuilt & _).
  - reflexivity.
  - reflexivity.
  - reflexivity.
  - reflexivity.
  - repeat constructor; eexists _, _, _; split_and!; reflexivity.
  - destruct clients as [| a [| b [| ? ?]]]; try discriminate Hlen.
    exists a, b. split; [exact Hmade |].
    inversion Hbuilt as [| ? ? ? ? (ua & ca & Hua & Hca & Ha) Hrest]; subst.
    inversion Hrest as [| ? ? ? ? (ub & cb & Hub & Hcb & Hb) _]; subst.
    cbn in Hua, Hca, Hub, Hcb.
    injection Hua as <-. injection Hca as <-.
    injection Hub as <-. injection Hcb as <-.
    split_and!; reflexivity.
Defined.

Lemma MakeHTTP_first_bad_host_empty :
  Output.MakeHTTP tt tt tt ["es1:9200"; ""; "es3:9200"]
    = (None, Some (LibError "empty host")).
Proof.
  change (Output.MakeHTTP tt tt tt ["es1:9200"; ""; "es3:9200"]
            = Output.Fail (LibError "empty host")).
  eapply (MakeHTTP_first_bad_host tt tt tt ["es1:9200"; ""; "es3:9200"]
            _ _ _ ["es1:9200"] "" ["es3:9200"]).
  - reflexivity.
  - reflexivity.
  - reflexivity.
  - reflexivity.
  - repeat constructor; eexists _, _, _; split_and!; reflexivity.
  - left. reflexivity.
Defined.
